(** * Rossler flow: velocity field, stability matrix and tangent-space flow

    A shallow embedding of [Rossler.py].  NumPy arrays of [float64] are
    lists of scalars, Python exceptions are an error result, and the three
    module-level parameters [a], [b], [c] live in an explicit store that is
    threaded through every call.  The NumPy functions are modelled after
    their documented behaviour (NumPy 1.18 and later); the ODE solver
    [scipy.integrate.odeint] is a parameter. *)

From Stdlib Require Import PrimFloat.
From Stdlib Require FloatOps SpecFloat.
From Stdlib Require Import List ZArith Lia Bool.
From Stdlib Require Import Reals Lra.
Import ListNotations.

Set Warnings "-inexact-float".

(** ** Scalars

    The arithmetic the program performs on [float] values.  The interface is
    instantiated below by IEEE binary64 (what CPython and NumPy compute
    with) and by the real numbers (what the mathematics is about). *)

Class Scalar (F : Type) : Type := {
  of_int : Z -> F;              (* float(n) for a Python int n *)
  fneg : F -> F;                (* -x *)
  fadd : F -> F -> F;           (* x + y *)
  fsub : F -> F -> F;           (* x - y *)
  fmul : F -> F -> F;           (* x * y *)
  fdiv : F -> F -> F;           (* x / y *)
  feqb : F -> F -> bool;        (* x == y *)
  fltb : F -> F -> bool;        (* x < y *)
  fleb : F -> F -> bool;        (* x <= y *)
  lit_0_2 : F;                  (* the literal 0.2 *)
  lit_5_7 : F;                  (* the literal 5.7 *)
  fdot : list F -> list F -> F  (* the inner-product kernel of np.dot *)
}.

(** [np.dot] hands the sum of products to the BLAS it was built with, so
    what [fdot] rounds, and when, belongs to the instance: the statements
    made for every [Scalar] hold whatever the kernel is. *)

(** ** Exceptions and results *)

Variant exn : Set :=
  | ValueError      (* wrong length or shape, negative sample count *)
  | TypeError       (* a float where an int is required *)
  | IndexError      (* position outside an array *)
  | RuntimeError.   (* anything else a solver may raise *)

Variant result (A : Type) : Type :=
  | Ok (x : A)
  | Raise (e : exn).

Arguments Ok {A} x.
Arguments Raise {A} e.

Definition is_ok {A : Type} (r : result A) : bool :=
  match r with
  | Ok _ => true
  | Raise _ => false
  end.

(** A Python number as the functions receive it for a time: an [int] or a
    [float]. *)
Variant pynum (F : Type) : Type :=
  | PyInt (n : Z)
  | PyFloat (x : F).

Arguments PyInt {F} n.
Arguments PyFloat {F} x.

Section Model.

Context {F : Type} `{Scalar F}.

(** ** The module's global names (lines 7-9) *)

Record Globals : Type := mkGlobals {
  a : F;
  b : F;
  c : F
}.

(** The store after the module body has run: [a = 0.2], [b = 0.2],
    [c = 5.7]. *)
Definition module_globals : Globals :=
  {| a := lit_0_2; b := lit_0_2; c := lit_5_7 |}.

(** ** Computations: a call may raise, and runs against the global store *)

Definition M (A : Type) : Type := Globals -> result A * Globals.

Definition ret {A : Type} (x : A) : M A := fun g => (Ok x, g).

Definition bind {A B : Type} (m : M A) (k : A -> M B) : M B :=
  fun g =>
    match m g with
    | (Ok x, g') => k x g'
    | (Raise e, g') => (Raise e, g')
    end.

Definition lift {A : Type} (r : result A) : M A := fun g => (r, g).

(** Reading a global name. *)
Definition load {A : Type} (name : Globals -> A) : M A :=
  fun g => (Ok (name g), g).

(** Rebinding the global [a] ([global a; a = x]).  No function of the
    module does this; it is what "mutating a constant" would be. *)
Definition rebind_a (x : F) : M unit :=
  fun g => (Ok tt, {| a := x; b := b g; c := c g |}).

End Model.

Arguments Globals F : clear implicits.
Arguments M F A : clear implicits.

Declare Scope py_scope.
Delimit Scope py_scope with py.
Notation "x <- m ;; k" := (bind m (fun x => k))
  (at level 100, m at next level, right associativity) : py_scope.
Notation "' p <- m ;; k" := (bind m (fun p => k))
  (at level 100, p pattern, m at next level, right associativity) : py_scope.
Open Scope py_scope.

Section Numpy.

Context {F : Type} `{Scalar F}.

(** ** The NumPy operations the program uses *)

(** [x, y, z = ssp] *)
Definition unpack3 (ssp : list F) : result (F * F * F) :=
  match ssp with
  | [x; y; z] => Ok (x, y, z)
  | _ => Raise ValueError
  end.

(** [v[lo:hi]] and [v[lo:]] for non-negative bounds. *)
Definition slice (lo hi : nat) (v : list F) : list F :=
  firstn (hi - lo) (skipn lo v).

Definition slice_from (lo : nat) (v : list F) : list F := skipn lo v.

(** Row-major split of a buffer into [r] rows of [c] entries. *)
Fixpoint rows_of (r c : nat) (v : list F) : list (list F) :=
  match r with
  | O => []
  | S r' => firstn c v :: rows_of r' c (skipn c v)
  end.

(** [v.reshape((r, c))] *)
Definition reshape2 (r c : nat) (v : list F) : result (list (list F)) :=
  if Nat.eqb (length v) (r * c) then Ok (rows_of r c v) else Raise ValueError.

(** [np.reshape(m, n)] for a 2-D [m] *)
Definition reshape1 (n : nat) (m : list (list F)) : result (list F) :=
  if Nat.eqb (length (concat m)) n then Ok (concat m) else Raise ValueError.

(** [np.zeros(n)] *)
Definition np_zeros (n : nat) : list F := repeat (of_int 0) n.

(** [np.identity(n)] *)
Definition np_identity (n : nat) : list (list F) :=
  map (fun i => map (fun j => if Nat.eqb i j then of_int 1 else of_int 0)
                    (seq 0 n))
      (seq 0 n).

(** [target[lo:hi] = values]: the slice is clipped to the target, [values]
    must have the length of the slice or length 1 (broadcast). *)
Definition assign_slice (lo hi : nat) (target values : list F)
  : result (list F) :=
  let n := length (slice lo hi target) in
  if Nat.eqb (length values) n then
    Ok (firstn lo target ++ values ++ skipn (lo + n) target)
  else
    match values with
    | [x] => Ok (firstn lo target ++ repeat x n ++ skipn (lo + n) target)
    | _ => Raise ValueError
    end.

(** [target[lo:] = values] *)
Definition assign_from (lo : nat) (target values : list F) : result (list F) :=
  assign_slice lo (length target) target values.

(** [np.dot] of two 2-D arrays: entry (i, j) is the inner product, by the
    kernel [fdot], of row i of [A] and column j of [B]. *)
Definition column (j : nat) (m : list (list F)) : list F :=
  map (fun row => nth j row (of_int 0)) m.

Definition ncols (m : list (list F)) : nat :=
  match m with
  | [] => 0
  | row :: _ => length row
  end.

Definition np_dot (A B : list (list F)) : result (list (list F)) :=
  if Nat.eqb (ncols A) (length B) then
    Ok (map (fun row => map (fun j => fdot row (column j B))
                            (seq 0 (ncols B)))
            A)
  else Raise ValueError.

(** [sol[-1, :]] *)
Definition last_row (sol : list (list F)) : result (list F) :=
  match rev sol with
  | [] => Raise IndexError
  | row :: _ => Ok row
  end.

(** [float(t)] and [t * k] for an int literal [k]. *)
Definition to_float (t : pynum F) : F :=
  match t with
  | PyInt n => of_int n
  | PyFloat x => x
  end.

Definition mul_int (t : pynum F) (k : Z) : pynum F :=
  match t with
  | PyInt n => PyInt (n * k)
  | PyFloat x => PyFloat (fmul x (of_int k))
  end.

(** [operator.index(num)]: an [int] is accepted, a [float] is a
    [TypeError]. *)
Definition operator_index (num : pynum F) : result Z :=
  match num with
  | PyInt n => Ok n
  | PyFloat _ => Raise TypeError
  end.

(** [y[-1] = stop] on a non-empty array. *)
Definition set_last (y : list F) (stop : F) : list F :=
  match y with
  | [] => []
  | _ => removelast y ++ [stop]
  end.

(** [np.linspace(start, stop, num)] with [endpoint=True] (NumPy 1.18 and
    later: the sample count goes through [operator.index]). *)
Definition linspace (start stop num : pynum F) : result (list F) :=
  match operator_index num with
  | Raise e => Raise e
  | Ok n =>
      if (n <? 0)%Z then Raise ValueError
      else
        let div := (n - 1)%Z in
        let start' := to_float start in
        let stop' := to_float stop in
        let delta := fsub stop' start' in
        let y := map (fun i => of_int (Z.of_nat i)) (seq 0 (Z.to_nat n)) in
        let y :=
          if (0 <? div)%Z then
            let step := fdiv delta (of_int div) in
            if feqb step (of_int 0) then
              map (fun yi => fmul (fdiv yi (of_int div)) delta) y
            else
              map (fun yi => fmul yi step) y
          else
            map (fun yi => fmul yi delta) y
        in
        let y := map (fun yi => fadd yi start') y in
        Ok (if (1 <? n)%Z then set_last y stop' else y)
  end.

End Numpy.

Section Rossler.

Context {F : Type} `{Scalar F}.

(** ** The Rossler functions *)

(** Lines 12-33. *)
Definition Velocity (ssp : list F) (t : F) : M F (list F) :=
  '(x, y, z) <- lift (unpack3 ssp) ;;
  let dxdt := fsub (fneg y) z in
  a' <- load a ;;
  let dydt := fadd x (fmul a' y) in
  b' <- load b ;;
  c' <- load c ;;
  let dzdt := fadd b' (fmul z (fsub x c')) in
  ret [dxdt; dydt; dzdt].

(** Lines 55-71. *)
Definition StabilityMatrix (ssp : list F) : M F (list (list F)) :=
  '(x, y, z) <- lift (unpack3 ssp) ;;
  a' <- load a ;;
  c' <- load c ;;
  ret [[of_int 0; of_int (-1); of_int (-1)];
       [of_int 1; a'; of_int 0];
       [z; of_int 0; fsub x c']].

(** Lines 74-103. *)
Definition JacobianVelocity (sspJacobian : list F) (t : F) : M F (list F) :=
  let ssp := slice 0 3 sspJacobian in
  J <- lift (reshape2 3 3 (slice_from 3 sspJacobian)) ;;
  let velJ := np_zeros (length sspJacobian) in
  vel <- Velocity ssp t ;;
  velJ <- lift (assign_slice 0 3 velJ vel) ;;
  A <- StabilityMatrix ssp ;;
  velTangent <- lift (np_dot A J) ;;
  flat <- lift (reshape1 9 velTangent) ;;
  velJ <- lift (assign_from 3 velJ flat) ;;
  ret velJ.

End Rossler.

Section Integration.

Context {F : Type} `{Scalar F}.

(** ** Integration (lines 36-52 and 106-133)

    [scipy.integrate.odeint] is an external solver: it is a parameter of
    [Flow] and [Jacobian].  It receives the right-hand side, the initial
    vector and the array of output times, and returns one row per time. *)

Definition rhs : Type := list F -> F -> M F (list F).

Definition integrator : Type := rhs -> list F -> list F -> M F (list (list F)).

(** Lines 36-52. *)
Definition Flow (odeint : integrator) (ssp0 : list F) (deltat : pynum F)
  : M F (list F) :=
  sspSolution <- odeint Velocity ssp0 [of_int 0; to_float deltat] ;;
  sspdeltat <- lift (last_row sspSolution) ;;
  ret sspdeltat.

(** Lines 116-122: the initial condition of the augmented system. *)
Definition initial_condition (ssp : list F) : M F (list F) :=
  let J0 := np_identity 3 in
  let sspJacobian0 := np_zeros (3 + 3 ^ 2) in
  sspJacobian0 <- lift (assign_slice 0 3 sspJacobian0 ssp) ;;
  flat <- lift (reshape1 9 J0) ;;
  sspJacobian0 <- lift (assign_from 3 sspJacobian0 flat) ;;
  ret sspJacobian0.

(** Lines 124-127: the output times. *)
Definition time_grid (t : pynum F) : M F (list F) :=
  let tInitial := PyInt 0 in
  let tFinal := t in
  let Nt := mul_int t 100 in
  tArray <- lift (linspace tInitial tFinal Nt) ;;
  ret tArray.

(** Line 132: [sol[-1, 3:].reshape((3, 3))]. *)
Definition final_block (sol : list (list F)) : M F (list (list F)) :=
  row <- lift (last_row sol) ;;
  lift (reshape2 3 3 (slice_from 3 row)).

(** Lines 106-133. *)
Definition Jacobian (odeint : integrator) (ssp : list F) (t : pynum F)
  : M F (list (list F)) :=
  sspJacobian0 <- initial_condition ssp ;;
  tArray <- time_grid t ;;
  sspJacobianSolution <- odeint JacobianVelocity sspJacobian0 tArray ;;
  J <- final_block sspJacobianSolution ;;
  ret J.

(** Line 90 as a function of the augmented state: the tangent block that
    [JacobianVelocity] decodes. *)
Definition decode_J (sspJacobian : list F) : result (list (list F)) :=
  reshape2 3 3 (slice_from 3 sspJacobian).

(** ** What is assumed of the solver *)

(** A computation that leaves the global store as it found it. *)
Definition read_only {A : Type} (m : M F A) : Prop :=
  forall g, snd (m g) = g.

(** The solution has one row per requested time. *)
Definition one_row_per_time (odeint : integrator) : Prop :=
  forall f y0 ts g sol g',
    odeint f y0 ts g = (Ok sol, g') -> length sol = length ts.

(** When the requested time equals the initial time the solver returns the
    initial vector without taking a step, provided the right-hand side can
    be evaluated there. *)
Definition immediate_return (odeint : integrator) : Prop :=
  forall f y0 t0 t1 g v,
    f y0 t0 g = (Ok v, g) ->
    feqb t1 t0 = true ->
    odeint f y0 [t0; t1] g = (Ok [y0; y0], g).

(** The solver touches the global store only through the right-hand side. *)
Definition store_through_rhs (odeint : integrator) : Prop :=
  forall f, (forall v t, read_only (f v t)) ->
  forall y0 ts, read_only (odeint f y0 ts).

(** ** A model solver

    Explicit Euler with one step per output interval; an interval of zero
    length returns the current vector unchanged.  It shows that the
    assumptions above can be met and lets [Flow] and [Jacobian] be run. *)

Definition euler_step (y v : list F) (h : F) : list F :=
  map (fun p => fadd (fst p) (fmul h (snd p))) (combine y v).

Fixpoint euler_from (f : rhs) (y : list F) (t : F) (ts : list F)
  : M F (list (list F)) :=
  match ts with
  | [] => ret []
  | t' :: ts' =>
      if feqb t' t then
        rest <- euler_from f y t' ts' ;;
        ret (y :: rest)
      else
        v <- f y t ;;
        let y' := euler_step y v (fsub t' t) in
        rest <- euler_from f y' t' ts' ;;
        ret (y' :: rest)
  end.

Definition euler_odeint : integrator :=
  fun f y0 ts =>
    match ts with
    | [] => ret []
    | t0 :: ts' =>
        _ <- f y0 t0 ;;
        rest <- euler_from f y0 t0 ts' ;;
        ret (y0 :: rest)
    end.

End Integration.

Arguments rhs F : clear implicits.
Arguments integrator F : clear implicits.

Section Reading.

Context {F : Type} `{Scalar F}.

(** ** Vocabulary for the statements *)

(** Entry (i, j) of a 2-D array. *)
Definition entry (m : list (list F)) (i j : nat) : F :=
  nth j (nth i m []) (of_int 0).

(** The product of two 3x3 matrices as [np.dot] forms it: entry (i, j) is
    the inner product of row i of [A] and column j of [B]. *)
Definition matrix_product_3x3 (A B : list (list F)) : list (list F) :=
  map (fun i => map (fun j => fdot (nth i A []) (column j B)) [0; 1; 2]%nat)
      [0; 1; 2]%nat.

(** The 3x3 matrix whose entry (i, j) is component [3*i + j] of [w]. *)
Definition row_major_3x3 (w : list F) : list (list F) :=
  map (fun i => map (fun j => nth (3 * i + j) w (of_int 0)) [0; 1; 2]%nat)
      [0; 1; 2]%nat.

(** [t <= 0] and [t > 0] for a Python number. *)
Definition nonpositive (t : pynum F) : bool :=
  match t with
  | PyInt n => (n <=? 0)%Z
  | PyFloat x => fleb x (of_int 0)
  end.

Definition positive (t : pynum F) : bool :=
  match t with
  | PyInt n => (0 <? n)%Z
  | PyFloat x => fltb (of_int 0) x
  end.

(** The exceptions with which an argument is rejected: for its value or
    length ([ValueError]) or for its type ([TypeError]).  An [IndexError]
    is a failed lookup and a [RuntimeError] a failed computation; neither
    says that an argument was refused. *)
Definition InvalidArgument (e : exn) : Prop :=
  e = ValueError \/ e = TypeError.

(** A call of one of the five operations, and what it returns. *)
Variant call : Type :=
  | CallVelocity (ssp : list F) (t : F)
  | CallFlow (ssp0 : list F) (deltat : pynum F)
  | CallStabilityMatrix (ssp : list F)
  | CallJacobianVelocity (sspJacobian : list F) (t : F)
  | CallJacobian (ssp : list F) (t : pynum F).

Variant value : Type :=
  | Vector (v : list F)
  | Matrix (m : list (list F)).

Definition run (odeint : integrator F) (k : call) : M F value :=
  match k with
  | CallVelocity ssp t => v <- Velocity ssp t ;; ret (Vector v)
  | CallFlow ssp0 deltat => v <- Flow odeint ssp0 deltat ;; ret (Vector v)
  | CallStabilityMatrix ssp => m <- StabilityMatrix ssp ;; ret (Matrix m)
  | CallJacobianVelocity v t => w <- JacobianVelocity v t ;; ret (Vector w)
  | CallJacobian ssp t => m <- Jacobian odeint ssp t ;; ret (Matrix m)
  end.

(** The store left by a sequence of calls, whether they return or raise. *)
Definition store_after (odeint : integrator F) (ks : list call) (g : Globals F)
  : Globals F :=
  fold_left (fun g' k => snd (run odeint k g')) ks g.

End Reading.

Arguments call F : clear implicits.
Arguments value F : clear implicits.

(** ** The two readings of a scalar *)

Module Binary64.

(** Fused multiply-add: [x * y + z] computed exactly and rounded once, to
    nearest even.  A zero product, and an infinity or a NaN among the
    arguments, leave nothing to fuse. *)
Definition signed (s : bool) (m : BinNums.positive) : Z :=
  if s then Z.neg m else Z.pos m.

Definition fma (x y z : float) : float :=
  match FloatOps.Prim2SF x, FloatOps.Prim2SF y, FloatOps.Prim2SF z with
  | SpecFloat.S754_finite sx mx ex, SpecFloat.S754_finite sy my ey,
    SpecFloat.S754_finite sz mz ez =>
      let ep := (ex + ey)%Z in
      let e := Z.min ep ez in
      let p := (signed (xorb sx sy) (mx * my) * 2 ^ (ep - e))%Z in
      let q := (signed sz mz * 2 ^ (ez - e))%Z in
      FloatOps.SF2Prim
        (SpecFloat.binary_normalize FloatOps.prec FloatOps.emax (p + q) e
           false)
  | SpecFloat.S754_finite _ _ _, SpecFloat.S754_finite _ _ _,
    SpecFloat.S754_infinity _ => z
  | SpecFloat.S754_finite _ _ _, SpecFloat.S754_finite _ _ _,
    SpecFloat.S754_zero _ => PrimFloat.mul x y
  | _, _, _ => PrimFloat.add (PrimFloat.mul x y) z
  end.

(** The kernel of a BLAS built with fused multiply-add: the accumulator
    starts at [+0.0] and takes one product at a time, from k = 0 upwards,
    with a single rounding per step. *)
Definition float_dot (u v : list float) : float :=
  fold_left (fun acc p => fma (fst p) (snd p) acc) (combine u v) 0%float.

(** [float(n)], correctly rounded. *)
Definition float_of_Z (n : Z) : float :=
  FloatOps.SF2Prim
    (SpecFloat.binary_normalize FloatOps.prec FloatOps.emax n 0 false).

#[global] Instance binary64 : Scalar float := {|
  of_int := float_of_Z;
  fneg := PrimFloat.opp;
  fadd := PrimFloat.add;
  fsub := PrimFloat.sub;
  fmul := PrimFloat.mul;
  fdiv := PrimFloat.div;
  feqb := PrimFloat.eqb;
  fltb := PrimFloat.ltb;
  fleb := PrimFloat.leb;
  lit_0_2 := 0.2%float;
  lit_5_7 := 5.7%float;
  fdot := float_dot
|}.

End Binary64.

Module Real.

(** The exact sum of products. *)
Definition real_dot (u v : list R) : R :=
  fold_left (fun acc p => (acc + fst p * snd p)%R) (combine u v) 0%R.

#[global] Instance real : Scalar R := {|
  of_int := IZR;
  fneg := Ropp;
  fadd := Rplus;
  fsub := Rminus;
  fmul := Rmult;
  fdiv := Rdiv;
  feqb := fun x y => if Req_dec_T x y then true else false;
  fltb := fun x y => if Rlt_dec x y then true else false;
  fleb := fun x y => if Rle_dec x y then true else false;
  lit_0_2 := (2 / 10)%R;
  lit_5_7 := (57 / 10)%R;
  fdot := real_dot
|}.

(** The three coordinates of a state. *)
Variant coord : Set := X | Y | Z3.

Definition index (i : coord) : nat :=
  match i with
  | X => 0
  | Y => 1
  | Z3 => 2
  end.

Definition get (i : coord) (s : R * R * R) : R :=
  match s, i with
  | (x, _, _), X => x
  | (_, y, _), Y => y
  | (_, _, z), Z3 => z
  end.

Definition put (i : coord) (h : R) (s : R * R * R) : R * R * R :=
  match s, i with
  | (_, y, z), X => (h, y, z)
  | (x, _, z), Y => (x, h, z)
  | (x, y, _), Z3 => (x, y, h)
  end.

Definition as_array (s : R * R * R) : list R :=
  match s with
  | (x, y, z) => [x; y; z]
  end.

(** Component [i] of [Velocity] at state [s], as a real function. *)
Definition velocity_component (g : Globals R) (i : coord) (s : R * R * R)
  : R :=
  match fst (Velocity (as_array s) 0%R g) with
  | Ok vel => nth (index i) vel 0%R
  | Raise _ => 0%R
  end.

(** Entry [(i, j)] of [StabilityMatrix] at state [s]. *)
Definition stability_entry (g : Globals R) (i j : coord) (s : R * R * R)
  : R :=
  match fst (StabilityMatrix (as_array s) g) with
  | Ok A => nth (index j) (nth (index i) A []) 0%R
  | Raise _ => 0%R
  end.

(** [l] is the partial derivative of [f] in direction [j] at [s]. *)
Definition partial_at (f : R * R * R -> R) (j : coord) (s : R * R * R) (l : R)
  : Prop :=
  derivable_pt_lim (fun h => f (put j h s)) (get j s) l.

End Real.

(** ** Shapes, columns and the solver's rows *)

Section Shapes.

Context {F : Type} `{Scalar F}.

(** A 2-D array of shape (3, 3). *)
Definition is_3x3 (m : list (list F)) : Prop :=
  length m = 3 /\ Forall (fun row => length row = 3) m.

(** The product of a 2-D array with a 1-D array: one inner product per
    row. *)
Definition matvec (A : list (list F)) (h : list F) : list F :=
  map (fun row => fdot row h) A.

(** Column [j] of the tangent block of an augmented vector: components
    [3 + j], [6 + j] and [9 + j]. *)
Definition tangent_column (j : nat) (v : list F) : list F :=
  [nth (3 + j) v (of_int 0); nth (6 + j) v (of_int 0);
   nth (9 + j) v (of_int 0)].

(** Every row of the solution is as long as the initial vector, when the
    right-hand side returns vectors as long as the one it is given. *)
Definition rows_as_wide_as_state (odeint : integrator F) : Prop :=
  forall f y0 ts g sol g',
    (forall v t g1 v' g2,
        length v = length y0 -> f v t g1 = (Ok v', g2) ->
        length v' = length y0) ->
    odeint f y0 ts g = (Ok sol, g') ->
    Forall (fun row => length row = length y0) sol.

End Shapes.

(** The functions as maps on real vectors. *)
Module RealVector.

Definition vadd (u v : list R) : list R :=
  map (fun p => (fst p + snd p)%R) (combine u v).

Definition vscale (k : R) (u : list R) : list R := map (Rmult k) u.

(** The textbook product of two 3x3 real matrices: entry (i, j) is
    [A[i][0]*B[0][j] + A[i][1]*B[1][j] + A[i][2]*B[2][j]]. *)
Definition textbook_product_3x3 (A B : list (list R)) : list (list R) :=
  map (fun i =>
         map (fun j =>
                (entry A i 0 * entry B 0 j + entry A i 1 * entry B 1 j
                 + entry A i 2 * entry B 2 j)%R)
             [0; 1; 2]%nat)
      [0; 1; 2]%nat.

(** [Velocity] at a state. *)
Definition velocity_at (g : Globals R) (s : list R) : list R :=
  match fst (Velocity s 0%R g) with
  | Ok vel => vel
  | Raise _ => []
  end.

(** [StabilityMatrix] at a state. *)
Definition stability_at (g : Globals R) (s : list R) : list (list R) :=
  match fst (StabilityMatrix s g) with
  | Ok A => A
  | Raise _ => []
  end.

(** The last nine components of [JacobianVelocity] at the augmented vector
    made of the state [s] and the flattened tangent matrix [J]. *)
Definition tangent_velocity (g : Globals R) (s J : list R) : list R :=
  match fst (JacobianVelocity (s ++ J) 0%R g) with
  | Ok velJ => skipn 3 velJ
  | Raise _ => []
  end.

End RealVector.

(** ** Velocity *)

Section VelocityFacts.

Context {F : Type} `{Scalar F}.

Lemma Velocity_triple (x y z t : F) (g : Globals F) :
  Velocity [x; y; z] t g =
  (Ok [fsub (fneg y) z;
       fadd x (fmul (a g) y);
       fadd (b g) (fmul z (fsub x (c g)))], g).
Proof. reflexivity. Qed.

End VelocityFacts.

(** C3.  At every state (x, y, z) and time t, [Velocity] returns
    (-y - z, x + a*y, b + z*(x - c)), where the store set up by the module
    holds a = 0.2, b = 0.2, c = 5.7; this is so in binary64 and in real
    arithmetic alike. *)
Theorem Velocity_closed_form :
  (forall (F : Type) (S : Scalar F) (x y z t : F),
      Velocity [x; y; z] t module_globals =
      (Ok [fsub (fneg y) z;
           fadd x (fmul lit_0_2 y);
           fadd lit_0_2 (fmul z (fsub x lit_5_7))], module_globals))
  /\ (forall x y z t : float,
         fst (Velocity [x; y; z] t module_globals) =
         Ok [- y - z; x + 0.2 * y; 0.2 + z * (x - 5.7)]%float)
  /\ (forall x y z t : R,
         fst (Velocity [x; y; z] t module_globals) =
         Ok [- y - z; x + 2 / 10 * y; 2 / 10 + z * (x - 57 / 10)]%R).
Proof.
  split; [| split]; intros; reflexivity.
Qed.

(** C8.  Neither [Velocity] nor [JacobianVelocity] looks at its time
    argument: two calls that differ only in the time give the same result
    (value or exception) and the same store. *)
Theorem time_argument_ignored :
  forall (F : Type) (S : Scalar F) (g : Globals F),
    (forall (s : list F) (t1 t2 : F), Velocity s t1 g = Velocity s t2 g)
    /\ (forall (v : list F) (t1 t2 : F),
           JacobianVelocity v t1 g = JacobianVelocity v t2 g).
Proof.
  intros F S g; split; intros; reflexivity.
Qed.

(** ** Stability matrix *)

Section StabilityFacts.

Context {F : Type} `{Scalar F}.

Lemma StabilityMatrix_triple (x y z : F) (g : Globals F) :
  StabilityMatrix [x; y; z] g =
  (Ok [[of_int 0; of_int (-1); of_int (-1)];
       [of_int 1; a g; of_int 0];
       [z; of_int 0; fsub x (c g)]], g).
Proof. reflexivity. Qed.

End StabilityFacts.

(** A function that is affine in its argument has its slope as derivative. *)
Lemma derivable_pt_lim_affine (f : R -> R) (x k : R) :
  (forall h : R, f (x + h) - f x = k * h)%R ->
  derivable_pt_lim f x k.
Proof.
  intros Hf eps Heps.
  exists (mkposreal 1 Rlt_0_1).
  intros h Hh _.
  rewrite Hf.
  replace (k * h / h - k)%R with 0%R by (field; exact Hh).
  rewrite Rabs_R0.
  exact Heps.
Qed.

(** C2.  At every state (x, y, z), [StabilityMatrix] returns
    [[0, -1, -1], [1, a, 0], [z, 0, x - c]]; read over the reals, its entry
    (i, j) is the partial derivative of component i of [Velocity] with
    respect to coordinate j at that state. *)
Theorem StabilityMatrix_is_derivative_of_Velocity :
  (forall (F : Type) (S : Scalar F) (x y z : F) (g : Globals F),
      StabilityMatrix [x; y; z] g =
      (Ok [[of_int 0; of_int (-1); of_int (-1)];
           [of_int 1; a g; of_int 0];
           [z; of_int 0; fsub x (c g)]], g))
  /\ (forall x y z : R,
         fst (StabilityMatrix [x; y; z] module_globals) =
         Ok [[0; -1; -1]; [1; 2 / 10; 0]; [z; 0; x - 57 / 10]]%R)
  /\ (forall (g : Globals R) (s : R * R * R) (i j : Real.coord),
         Real.partial_at (Real.velocity_component g i) j s
                         (Real.stability_entry g i j s)).
Proof.
  split; [| split].
  - intros; reflexivity.
  - intros; reflexivity.
  - intros g [[x y] z] i j.
    unfold Real.partial_at.
    apply derivable_pt_lim_affine.
    intros h.
    destruct i, j; cbn; ring.
Qed.

(** ** Reshaping *)

Section ReshapeFacts.

Context {F : Type} `{Scalar F}.

Lemma concat_rows_of (r c : nat) :
  forall v : list F, length v = r * c -> concat (rows_of r c v) = v.
Proof.
  induction r as [| r IH]; intros v Hv; simpl in *.
  - now apply length_zero_iff_nil in Hv.
  - rewrite IH.
    + apply firstn_skipn.
    + rewrite length_skipn. lia.
Qed.

Lemma rows_of_concat (c : nat) :
  forall m : list (list F),
    Forall (fun row => length row = c) m ->
    rows_of (length m) c (concat m) = m.
Proof.
  induction m as [| row m IH]; intros Hm; simpl.
  - reflexivity.
  - inversion Hm as [| ? ? Hrow Hrest]; subst.
    rewrite firstn_app, Nat.sub_diag, firstn_all, firstn_O, app_nil_r.
    rewrite skipn_app, Nat.sub_diag, skipn_all, skipn_O.
    simpl. now rewrite IH.
Qed.

Lemma length_concat_uniform (c : nat) :
  forall m : list (list F),
    Forall (fun row => length row = c) m ->
    length (concat m) = length m * c.
Proof.
  induction m as [| row m IH]; intros Hm; simpl.
  - reflexivity.
  - inversion Hm; subst. rewrite length_app, IH by assumption. reflexivity.
Qed.

Lemma reshape2_then_reshape1 (r c : nat) (v : list F) :
  length v = r * c ->
  exists m, reshape2 r c v = Ok m /\ reshape1 (r * c) m = Ok v.
Proof.
  intros Hv.
  exists (rows_of r c v).
  unfold reshape2, reshape1.
  rewrite concat_rows_of by assumption.
  rewrite Hv, Nat.eqb_refl. split; reflexivity.
Qed.

Lemma reshape1_then_reshape2 (r c : nat) (m : list (list F)) :
  length m = r ->
  Forall (fun row => length row = c) m ->
  exists v, reshape1 (r * c) m = Ok v /\ reshape2 r c v = Ok m.
Proof.
  intros Hr Hc.
  exists (concat m).
  unfold reshape2, reshape1.
  rewrite (length_concat_uniform c m Hc), Hr, Nat.eqb_refl.
  rewrite <- Hr, rows_of_concat by assumption.
  split; reflexivity.
Qed.

Lemma initial_condition_triple (x y z : F) (g : Globals F) :
  initial_condition [x; y; z] g =
  (Ok [x; y; z;
       of_int 1; of_int 0; of_int 0;
       of_int 0; of_int 1; of_int 0;
       of_int 0; of_int 0; of_int 1], g).
Proof. reflexivity. Qed.

End ReshapeFacts.

(** C10.  Reshaping a 9-component vector to 3x3 and flattening it gives the
    vector back; flattening a 3x3 matrix and reshaping gives the matrix
    back; and the tangent block of the initial condition that [Jacobian]
    builds is decoded by [JacobianVelocity] to the identity matrix. *)
Theorem pack_unpack_roundtrip :
  forall (F : Type) (S : Scalar F) (v : list F) (m : list (list F))
         (x y z : F) (g : Globals F),
    length v = 9 ->
    length m = 3 ->
    Forall (fun row => length row = 3) m ->
    (exists m', reshape2 3 3 v = Ok m' /\ reshape1 9 m' = Ok v)
    /\ (exists v', reshape1 9 m = Ok v' /\ reshape2 3 3 v' = Ok m)
    /\ (exists v0, initial_condition [x; y; z] g = (Ok v0, g)
                   /\ decode_J v0 = Ok (np_identity 3)).
Proof.
  intros F S v m x y z g Hv Hm Hrows.
  split; [| split].
  - exact (reshape2_then_reshape1 3 3 v Hv).
  - exact (reshape1_then_reshape2 3 3 m Hm Hrows).
  - eexists. split.
    + apply initial_condition_triple.
    + reflexivity.
Qed.

Lemma pack_unpack_roundtrip_witness :
  let v := [1; 2; 3; 4; 5; 6; 7; 8; 9]%float in
  let m := [[1; 2; 3]; [4; 5; 6]; [7; 8; 9]]%float in
  (exists m', reshape2 3 3 v = Ok m' /\ reshape1 9 m' = Ok v)
  /\ (exists v', reshape1 9 m = Ok v' /\ reshape2 3 3 v' = Ok m)
  /\ (exists v0,
         initial_condition [0.5; 0; 2]%float module_globals
           = (Ok v0, module_globals)
         /\ decode_J v0 = Ok (np_identity 3)).
Proof.
  intros v m.
  apply (pack_unpack_roundtrip float Binary64.binary64 v m).
  - reflexivity.
  - reflexivity.
  - repeat constructor.
Defined.

(** ** The augmented velocity *)

(** C1.  On a 12-component vector [v], [JacobianVelocity] returns a
    12-component vector: its first three components are
    [Velocity(v[0:3], t)], its last nine are the row-major flattening of
    the product of [StabilityMatrix(v[0:3])] with the 3x3 matrix read
    row-major from [v[3:12]].  The product is [np.dot]'s, each entry an
    inner product of a row and a column by the kernel of the arithmetic;
    over the reals it is the textbook product. *)
Theorem JacobianVelocity_blocks :
  forall (F : Type) (S : Scalar F) (v : list F) (t : F) (g : Globals F)
         (w : list R) (s : R) (h : Globals R),
    length v = 12 ->
    length w = 12 ->
    (exists (vel : list F) (A : list (list F)) (out : list F),
        Velocity (slice 0 3 v) t g = (Ok vel, g)
        /\ StabilityMatrix (slice 0 3 v) g = (Ok A, g)
        /\ JacobianVelocity v t g = (Ok out, g)
        /\ length out = 12
        /\ firstn 3 out = vel
        /\ skipn 3 out =
           concat (matrix_product_3x3 A (row_major_3x3 (slice 3 12 v))))
    /\ (exists (vel : list R) (A : list (list R)) (out : list R),
           Velocity (slice 0 3 w) s h = (Ok vel, h)
           /\ StabilityMatrix (slice 0 3 w) h = (Ok A, h)
           /\ JacobianVelocity w s h = (Ok out, h)
           /\ length out = 12
           /\ firstn 3 out = vel
           /\ skipn 3 out =
              concat (RealVector.textbook_product_3x3 A
                        (row_major_3x3 (slice 3 12 w)))).
Proof.
  intros F S v t g w s h Hv Hw.
  do 12 (destruct v as [| ? v]; [discriminate Hv |]).
  destruct v; [| discriminate Hv].
  do 12 (destruct w as [| ? w]; [discriminate Hw |]).
  destruct w; [| discriminate Hw].
  split.
  - do 3 eexists.
    split; [cbn; reflexivity |].
    split; [cbn; reflexivity |].
    split; [cbn; reflexivity |].
    split; [reflexivity |].
    split; reflexivity.
  - do 3 eexists.
    split; [cbn; reflexivity |].
    split; [cbn; reflexivity |].
    split; [cbn; reflexivity |].
    split; [reflexivity |].
    split; [reflexivity |].
    cbn. repeat (f_equal; try ring).
Qed.

Lemma JacobianVelocity_blocks_witness :
  let v := [1; 2; 3; 0.2; 0; 0; 0.1; 1; 0; 0.1; 0; 1]%float in
  let w := [1; 2; 3; 2 / 10; 0; 0; 1 / 10; 1; 0; 1 / 10; 0; 1]%R in
  (exists (vel : list float) (A : list (list float)) (out : list float),
      Velocity (slice 0 3 v) 0%float module_globals = (Ok vel, module_globals)
      /\ StabilityMatrix (slice 0 3 v) module_globals
         = (Ok A, module_globals)
      /\ JacobianVelocity v 0%float module_globals = (Ok out, module_globals)
      /\ length out = 12
      /\ firstn 3 out = vel
      /\ skipn 3 out =
         concat (matrix_product_3x3 A (row_major_3x3 (slice 3 12 v))))
  /\ (exists (vel : list R) (A : list (list R)) (out : list R),
         Velocity (slice 0 3 w) 0%R module_globals = (Ok vel, module_globals)
         /\ StabilityMatrix (slice 0 3 w) module_globals
            = (Ok A, module_globals)
         /\ JacobianVelocity w 0%R module_globals = (Ok out, module_globals)
         /\ length out = 12
         /\ firstn 3 out = vel
         /\ skipn 3 out =
            concat (RealVector.textbook_product_3x3 A
                      (row_major_3x3 (slice 3 12 w)))).
Proof.
  intros v w.
  apply (JacobianVelocity_blocks float Binary64.binary64 v 0%float
           module_globals w 0%R module_globals).
  - reflexivity.
  - reflexivity.
Defined.

(** ** The store is only read *)

Section StoreFacts.

Context {F : Type} `{Scalar F}.

Lemma read_only_ret (A : Type) (x : A) : read_only (F := F) (ret x).
Proof. intros g; reflexivity. Qed.

Lemma read_only_lift (A : Type) (r : result A) :
  read_only (F := F) (lift r).
Proof. intros g; reflexivity. Qed.

Lemma read_only_load (A : Type) (name : Globals F -> A) :
  read_only (load name).
Proof. intros g; reflexivity. Qed.

Lemma read_only_bind (A B : Type) (m : M F A) (k : A -> M F B) :
  read_only m -> (forall x, read_only (k x)) -> read_only (bind m k).
Proof.
  intros Hm Hk g.
  unfold bind.
  specialize (Hm g).
  destruct (m g) as [[x | e] g']; simpl in Hm; subst g'.
  - apply Hk.
  - reflexivity.
Qed.

Lemma bind_ret_r (A : Type) (m : M F A) (g : Globals F) :
  bind m ret g = m g.
Proof.
  unfold bind, ret.
  destruct (m g) as [[x | e] g']; reflexivity.
Qed.

Lemma bind_ok (A B : Type) (m : M F A) (k : A -> M F B)
      (g g' : Globals F) (x : A) :
  m g = (Ok x, g') -> bind m k g = k x g'.
Proof. intros Hm. unfold bind. rewrite Hm. reflexivity. Qed.

Lemma bind_ext (A B : Type) (m : M F A) (k k' : A -> M F B) (g : Globals F) :
  (forall x g', k x g' = k' x g') -> bind m k g = bind m k' g.
Proof.
  intros Hk. unfold bind.
  destruct (m g) as [[x | e] g']; [apply Hk | reflexivity].
Qed.

Lemma read_only_run (A : Type) (m : M F A) (g : Globals F) :
  read_only m -> m g = (fst (m g), g).
Proof.
  intros Hm. specialize (Hm g).
  destruct (m g) as [r g']; simpl in *; now subst.
Qed.

Ltac read_only_step :=
  first
    [ apply read_only_ret
    | apply read_only_lift
    | apply read_only_load
    | apply read_only_bind; [| intros ? ] ].

Lemma Velocity_read_only (ssp : list F) (t : F) : read_only (Velocity ssp t).
Proof.
  unfold Velocity.
  apply read_only_bind; [apply read_only_lift | intros [[x y] z]].
  repeat read_only_step.
Qed.

Lemma StabilityMatrix_read_only (ssp : list F) :
  read_only (StabilityMatrix ssp).
Proof.
  unfold StabilityMatrix.
  apply read_only_bind; [apply read_only_lift | intros [[x y] z]].
  repeat read_only_step.
Qed.

Lemma JacobianVelocity_read_only (v : list F) (t : F) :
  read_only (JacobianVelocity v t).
Proof.
  unfold JacobianVelocity.
  repeat first [ apply Velocity_read_only
               | apply StabilityMatrix_read_only
               | read_only_step ].
Qed.

Lemma initial_condition_read_only (ssp : list F) :
  read_only (initial_condition ssp).
Proof. unfold initial_condition. repeat read_only_step. Qed.

Lemma time_grid_read_only (t : pynum F) : read_only (time_grid t).
Proof. unfold time_grid. repeat read_only_step. Qed.

Lemma final_block_read_only (sol : list (list F)) :
  read_only (final_block sol).
Proof. unfold final_block. repeat read_only_step. Qed.

Section WithSolver.

Variable odeint : integrator F.
Hypothesis odeint_store : store_through_rhs odeint.

Lemma Flow_read_only (ssp0 : list F) (deltat : pynum F) :
  read_only (Flow odeint ssp0 deltat).
Proof.
  unfold Flow.
  apply read_only_bind.
  - apply odeint_store. apply Velocity_read_only.
  - intros sol. repeat read_only_step.
Qed.

Lemma Jacobian_read_only (ssp : list F) (t : pynum F) :
  read_only (Jacobian odeint ssp t).
Proof.
  unfold Jacobian.
  apply read_only_bind; [apply initial_condition_read_only | intros v0].
  apply read_only_bind; [apply time_grid_read_only | intros tArray].
  apply read_only_bind.
  - apply odeint_store. apply JacobianVelocity_read_only.
  - intros sol.
    apply read_only_bind; [apply final_block_read_only | intros J].
    apply read_only_ret.
Qed.

Lemma run_read_only (k : call F) : read_only (run odeint k).
Proof.
  destruct k; simpl;
    (apply read_only_bind; [| intros ?; apply read_only_ret]).
  - apply Velocity_read_only.
  - apply Flow_read_only.
  - apply StabilityMatrix_read_only.
  - apply JacobianVelocity_read_only.
  - apply Jacobian_read_only.
Qed.

Lemma store_after_unchanged (ks : list (call F)) (g : Globals F) :
  store_after odeint ks g = g.
Proof.
  unfold store_after.
  induction ks as [| k ks IH]; simpl.
  - reflexivity.
  - rewrite (run_read_only k g). exact IH.
Qed.

End WithSolver.

(** ** The model solver meets the assumptions *)

Lemma euler_from_rows (f : rhs F) :
  forall (ts : list F) (y : list F) (t : F) (g : Globals F)
         (rest : list (list F)) (g' : Globals F),
    euler_from f y t ts g = (Ok rest, g') -> length rest = length ts.
Proof.
  induction ts as [| t' ts IH]; intros y t g rest g' Hrun; simpl in Hrun.
  - inversion Hrun; reflexivity.
  - destruct (feqb t' t).
    + unfold bind in Hrun.
      destruct (euler_from f y t' ts g) as [[r | e] g1] eqn:E;
        [| discriminate Hrun].
      inversion Hrun; subst. simpl. f_equal. eapply IH; eassumption.
    + unfold bind in Hrun.
      destruct (f y t g) as [[v | e] g1]; [| discriminate Hrun].
      destruct (euler_from f (euler_step y v (fsub t' t)) t' ts g1)
        as [[r | e] g2] eqn:E; [| discriminate Hrun].
      inversion Hrun; subst. simpl. f_equal. eapply IH; eassumption.
Qed.

Lemma euler_one_row_per_time : one_row_per_time euler_odeint.
Proof.
  intros f y0 [| t0 ts] g sol g' Hrun; simpl in Hrun.
  - inversion Hrun; reflexivity.
  - unfold bind in Hrun.
    destruct (f y0 t0 g) as [[v | e] g1]; [| discriminate Hrun].
    destruct (euler_from f y0 t0 ts g1) as [[r | e] g2] eqn:E;
      [| discriminate Hrun].
    inversion Hrun; subst. simpl. f_equal. eapply euler_from_rows; eassumption.
Qed.

Lemma euler_immediate_return : immediate_return euler_odeint.
Proof.
  intros f y0 t0 t1 g v Hf Ht.
  unfold euler_odeint, bind.
  rewrite Hf. simpl. rewrite Ht. reflexivity.
Qed.

Lemma euler_from_read_only (f : rhs F) :
  (forall v t, read_only (f v t)) ->
  forall (ts : list F) (y : list F) (t : F), read_only (euler_from f y t ts).
Proof.
  intros Hf.
  induction ts as [| t' ts IH]; intros y t; simpl.
  - apply read_only_ret.
  - destruct (feqb t' t).
    + apply read_only_bind; [apply IH | intros ?; apply read_only_ret].
    + apply read_only_bind; [apply Hf | intros v].
      apply read_only_bind; [apply IH | intros ?; apply read_only_ret].
Qed.

Lemma euler_store_through_rhs : store_through_rhs euler_odeint.
Proof.
  intros f Hf y0 [| t0 ts]; simpl.
  - apply read_only_ret.
  - apply read_only_bind; [apply Hf | intros ?].
    apply read_only_bind; [apply euler_from_read_only; exact Hf | intros ?].
    apply read_only_ret.
Qed.

End StoreFacts.

(** C9.  No call writes to the store: it is the same after any call of
    [Velocity], [Flow], [StabilityMatrix], [JacobianVelocity] or [Jacobian]
    as before it, whether the call returns or raises, and after any
    sequence of calls; so a, b, c keep the values 0.2, 0.2, 5.7 set by the
    module, and a call repeated with the same inputs gives the same result. *)
Theorem constants_never_mutated :
  forall (F : Type) (S : Scalar F) (odeint : integrator F),
    store_through_rhs odeint ->
    forall (k : call F) (ks : list (call F)) (g : Globals F),
      snd (run odeint k g) = g
      /\ fst (run odeint k (snd (run odeint k g))) = fst (run odeint k g)
      /\ store_after odeint ks g = g
      /\ a (store_after odeint ks module_globals) = lit_0_2
      /\ b (store_after odeint ks module_globals) = lit_0_2
      /\ c (store_after odeint ks module_globals) = lit_5_7.
Proof.
  intros F S odeint Hstore k ks g.
  pose proof (run_read_only odeint Hstore k g) as Hk.
  split; [exact Hk |].
  split; [rewrite Hk; reflexivity |].
  split; [apply store_after_unchanged; exact Hstore |].
  rewrite (store_after_unchanged odeint Hstore ks module_globals).
  repeat split.
Qed.

Lemma constants_never_mutated_witness :
  let k := CallJacobian [1; 2; 3]%float (PyInt 1) in
  let ks := [CallFlow [1; 2; 3]%float (PyFloat 0.5%float);
             CallVelocity [1; 2]%float 0%float;
             CallJacobian [1; 2; 3]%float (PyInt 1)] in
  snd (run euler_odeint k module_globals) = module_globals
  /\ fst (run euler_odeint k (snd (run euler_odeint k module_globals)))
     = fst (run euler_odeint k module_globals)
  /\ store_after euler_odeint ks module_globals = module_globals
  /\ a (store_after euler_odeint ks module_globals) = 0.2%float
  /\ b (store_after euler_odeint ks module_globals) = 0.2%float
  /\ c (store_after euler_odeint ks module_globals) = 5.7%float.
Proof.
  intros k ks.
  exact (constants_never_mutated float Binary64.binary64 euler_odeint
           euler_store_through_rhs k ks module_globals).
Defined.

(** ** Zero-time flow *)

(** C6.  When the time increment is zero the flow is the identity: for
    every state s, [Flow(s, 0)] returns s itself, given a solver that
    returns the initial vector when the requested time is the initial
    time. *)
Theorem Flow_zero_time :
  forall (F : Type) (S : Scalar F) (odeint : integrator F),
    immediate_return odeint ->
    forall (x y z : F) (deltat : pynum F) (g : Globals F),
      feqb (to_float deltat) (of_int 0) = true ->
      Flow odeint [x; y; z] deltat g = (Ok [x; y; z], g).
Proof.
  intros F S odeint Himm x y z deltat g Hzero.
  unfold Flow, bind.
  rewrite (Himm Velocity [x; y; z] (of_int 0) (to_float deltat) g _
             (Velocity_triple x y z (of_int 0) g) Hzero).
  reflexivity.
Qed.

Lemma Flow_zero_time_witness :
  Flow euler_odeint [1; 2; 3]%float (PyInt 0) module_globals
  = (Ok [1; 2; 3]%float, module_globals).
Proof.
  apply (Flow_zero_time float Binary64.binary64 euler_odeint
           euler_immediate_return).
  reflexivity.
Defined.

(** ** The Jacobian of the flow *)

Section JacobianFacts.

Context {F : Type} `{Scalar F}.

Lemma final_block_last (rows : list (list F)) (g : Globals F)
      (r0 r1 r2 r3 r4 r5 r6 r7 r8 r9 r10 r11 : F) :
  final_block (rows ++ [[r0; r1; r2; r3; r4; r5; r6; r7; r8; r9; r10; r11]]) g
  = (Ok [[r3; r4; r5]; [r6; r7; r8]; [r9; r10; r11]], g).
Proof.
  unfold final_block, bind, lift, last_row.
  rewrite rev_app_distr. reflexivity.
Qed.

Lemma assign_slice_cases (lo hi : nat) (target values : list F) :
  (exists out, assign_slice lo hi target values = Ok out)
  \/ assign_slice lo hi target values = Raise ValueError.
Proof.
  unfold assign_slice.
  destruct (Nat.eqb _ _).
  - left; eexists; reflexivity.
  - destruct values as [| x [| x' rest]].
    + right; reflexivity.
    + left; eexists; reflexivity.
    + right; reflexivity.
Qed.

Lemma reshape1_cases (n : nat) (m : list (list F)) :
  (exists out, reshape1 n m = Ok out) \/ reshape1 n m = Raise ValueError.
Proof.
  unfold reshape1.
  destruct (Nat.eqb _ _); [left; eexists |right]; reflexivity.
Qed.

Lemma initial_condition_cases (ssp : list F) (g : Globals F) :
  (exists v0, initial_condition ssp g = (Ok v0, g))
  \/ initial_condition ssp g = (Raise ValueError, g).
Proof.
  unfold initial_condition, bind, lift, ret, assign_from.
  cbv zeta.
  destruct (assign_slice_cases 0 3 (np_zeros (3 + 3 ^ 2)) ssp)
    as [[s0 ->] | ->]; [| right; reflexivity].
  destruct (reshape1_cases 9 (np_identity 3)) as [[flat ->] | ->];
    [| right; reflexivity].
  destruct (assign_slice_cases 3 (length s0) s0 flat) as [[s1 ->] | ->];
    [left; eexists | right]; reflexivity.
Qed.

Lemma time_grid_float (x : F) (g : Globals F) :
  time_grid (PyFloat x) g = (Raise TypeError, g).
Proof. reflexivity. Qed.

Lemma time_grid_zero (g : Globals F) :
  time_grid (PyInt 0) g = (Ok [], g).
Proof. reflexivity. Qed.

Lemma time_grid_negative (n : Z) (g : Globals F) :
  (n < 0)%Z -> time_grid (PyInt n) g = (Raise ValueError, g).
Proof.
  intros Hn.
  unfold time_grid, bind, lift, linspace, mul_int, operator_index.
  replace (n * 100 <? 0)%Z with true by (symmetry; apply Z.ltb_lt; lia).
  reflexivity.
Qed.

End JacobianFacts.

(** C5, as the code has it.  With a time [t <= 0], [Jacobian] does not
    return a matrix: it raises, given a solver that returns one row per
    requested time.  [Jacobian] checks nothing itself.  Away from [t = 0]
    the call is refused as an argument: a negative sample count is a
    [ValueError] of [linspace] (and a malformed state a [ValueError], a
    float sample count a [TypeError]).  At [t = 0] the grid is empty and,
    the state being well formed, the exception is the solver's own or the
    [IndexError] of reading the last row of a solution without rows. *)
Theorem Jacobian_rejects_nonpositive_time :
  forall (F : Type) (S : Scalar F) (odeint : integrator F),
    one_row_per_time odeint ->
    forall (ssp : list F) (t : pynum F) (g : Globals F),
      nonpositive t = true ->
      exists e : exn,
        fst (Jacobian odeint ssp t g) = Raise e
        /\ (InvalidArgument e
            \/ (t = PyInt 0
                /\ (e = IndexError
                    \/ exists (y0 : list F) (g0 : Globals F),
                         fst (odeint JacobianVelocity y0 [] g0) = Raise e))).
Proof.
  intros F S odeint Hrows ssp t g Ht.
  unfold Jacobian.
  unfold bind at 1.
  destruct (initial_condition_cases ssp g) as [[v0 ->] | ->].
  2: { exists ValueError. split; [reflexivity | left; left; reflexivity]. }
  unfold bind at 1.
  destruct t as [n | x].
  - simpl in Ht. apply Z.leb_le in Ht.
    destruct (Z.eq_dec n 0) as [-> | Hn].
    + rewrite time_grid_zero.
      unfold bind at 1.
      destruct (odeint JacobianVelocity v0 [] g) as [[sol | e] g1] eqn:Esol.
      * apply Hrows in Esol.
        apply length_zero_iff_nil in Esol. subst sol.
        exists IndexError.
        split; [reflexivity | right].
        split; [reflexivity | left; reflexivity].
      * exists e.
        split; [reflexivity | right].
        split; [reflexivity | right].
        exists v0, g. rewrite Esol. reflexivity.
    + rewrite time_grid_negative by lia.
      exists ValueError. split; [reflexivity | left; left; reflexivity].
  - rewrite time_grid_float.
    exists TypeError. split; [reflexivity | left; right; reflexivity].
Qed.

Lemma Jacobian_rejects_nonpositive_time_witness :
  exists e : exn,
    fst (Jacobian euler_odeint [1; 2; 3]%float (PyInt (-2)) module_globals)
    = Raise e
    /\ (InvalidArgument e
        \/ (@PyInt float (-2) = PyInt 0
            /\ (e = IndexError
                \/ exists (y0 : list float) (g0 : Globals float),
                     fst (euler_odeint JacobianVelocity y0 [] g0)
                     = Raise e))).
Proof.
  apply (Jacobian_rejects_nonpositive_time float Binary64.binary64
           euler_odeint euler_one_row_per_time).
  reflexivity.
Defined.

(** C5 as stated fails at [t = 0]: the call does fail, but with the
    [IndexError] of [sol[-1]] on a solution without rows, which refuses no
    argument. *)
Lemma Jacobian_zero_time_counterexample :
  nonpositive (@PyInt float 0) = true
  /\ fst (Jacobian euler_odeint [1; 2; 3]%float (PyInt 0) module_globals)
     = Raise IndexError
  /\ ~ InvalidArgument IndexError
  /\ ~ (exists e : exn,
           fst (Jacobian euler_odeint [1; 2; 3]%float (PyInt 0)
                  module_globals) = Raise e
           /\ InvalidArgument e).
Proof.
  split; [reflexivity |].
  split; [vm_compute; reflexivity |].
  split.
  - intros [Hv | Ht]; discriminate.
  - intros [e [Hraise [Hv | Ht]]]; subst e;
      vm_compute in Hraise; discriminate Hraise.
Qed.

(** ** The time grid *)

Section GridFacts.

Context {F : Type} `{Scalar F}.

Lemma set_last_length (y : list F) (s : F) :
  length (set_last y s) = length y.
Proof.
  destruct y as [| y0 y]; [reflexivity |].
  unfold set_last.
  rewrite (app_removelast_last y0 (l := y0 :: y)) at 2 by discriminate.
  rewrite !length_app. reflexivity.
Qed.

Lemma set_last_last (y : list F) (s d : F) :
  y <> [] -> last (set_last y s) d = s.
Proof.
  destruct y as [| y0 y]; [congruence |].
  intros _. unfold set_last. apply last_last.
Qed.

Lemma In_removelast (x : F) (l : list F) :
  In x (removelast l) -> In x l.
Proof.
  induction l as [| y [| z l] IH]; simpl; intros Hin.
  - exact Hin.
  - contradiction.
  - destruct Hin as [-> | Hin]; [left; reflexivity | right; apply IH, Hin].
Qed.

Lemma In_set_last (x s : F) (y : list F) :
  In x (set_last y s) -> In x y \/ x = s.
Proof.
  destruct y as [| y0 y]; [contradiction |].
  unfold set_last. intros Hin.
  apply in_app_or in Hin. destruct Hin as [Hin | [-> | []]].
  - left. apply In_removelast, Hin.
  - right. reflexivity.
Qed.

(** With at least two samples, [linspace] returns [num] values of which the
    last is [stop] itself. *)
Lemma linspace_int_count (start stop : pynum F) (k : Z) :
  (2 <= k)%Z ->
  exists y : list F,
    linspace start stop (PyInt k) = Ok (set_last y (to_float stop))
    /\ length y = Z.to_nat k.
Proof.
  intros Hk.
  unfold linspace, operator_index.
  replace (k <? 0)%Z with false by (symmetry; apply Z.ltb_ge; lia).
  replace (0 <? k - 1)%Z with true by (symmetry; apply Z.ltb_lt; lia).
  replace (1 <? k)%Z with true by (symmetry; apply Z.ltb_lt; lia).
  cbv zeta.
  eexists. split; [reflexivity |].
  rewrite length_map.
  destruct (feqb _ _); rewrite !length_map, length_seq; reflexivity.
Qed.

Lemma time_grid_integer (n : Z) (g : Globals F) :
  (1 <= n)%Z ->
  exists tArray : list F,
    time_grid (PyInt n) g = (Ok tArray, g)
    /\ length tArray = Z.to_nat (100 * n)
    /\ 100 <= length tArray
    /\ last tArray (of_int 0) = of_int n.
Proof.
  intros Hn.
  destruct (linspace_int_count (PyInt 0) (PyInt n) (n * 100)) as [y [Hy Hlen]];
    [lia |].
  exists (set_last y (to_float (PyInt n))).
  split.
  - unfold time_grid, bind, lift, ret, mul_int. cbv zeta. rewrite Hy.
    reflexivity.
  - rewrite set_last_length, Hlen.
    split; [f_equal; lia |].
    split; [lia |].
    apply set_last_last.
    intros ->. simpl in Hlen. lia.
Qed.

End GridFacts.

(** Over the reals, the k-th of the evenly spaced samples between 0 and a
    non-negative end lies between 0 and that end. *)
Lemma sample_within_span (x d e : R) :
  (0 <= x <= d)%R -> (0 < d)%R -> (0 <= e)%R ->
  (0 <= x / d * (e - 0) + 0 <= e)%R /\ (0 <= x * ((e - 0) / d) + 0 <= e)%R.
Proof.
  intros [Hx0 Hxd] Hd He.
  assert (Hq : (0 <= x / d <= 1)%R).
  { pose proof (Rinv_0_lt_compat d Hd) as Hinv.
    assert (Hone : (d * / d = 1)%R) by (apply Rinv_r; lra).
    unfold Rdiv. split; nra. }
  replace (x * ((e - 0) / d) + 0)%R with (x / d * (e - 0) + 0)%R
    by (field; lra).
  split; split; nra.
Qed.

Lemma time_grid_real_span (n : Z) (g : Globals R) :
  (1 <= n)%Z ->
  exists tArray : list R,
    time_grid (PyInt n) g = (Ok tArray, g)
    /\ hd 0%R tArray = 0%R
    /\ Forall (fun s => (0 <= s <= IZR n)%R) tArray.
Proof.
  intros Hn.
  unfold time_grid, bind, lift, ret, mul_int, linspace, operator_index.
  replace (n * 100 <? 0)%Z with false by (symmetry; apply Z.ltb_ge; lia).
  replace (0 <? n * 100 - 1)%Z with true by (symmetry; apply Z.ltb_lt; lia).
  replace (1 <? n * 100)%Z with true by (symmetry; apply Z.ltb_lt; lia).
  cbv zeta.
  eexists. split; [reflexivity |].
  assert (Hd : (0 < IZR (n * 100 - 1))%R) by (apply IZR_lt; lia).
  assert (He : (0 <= IZR n)%R) by (apply IZR_le; lia).
  split.
  - destruct (Z.to_nat (n * 100)) as [| [| N]] eqn:EN; [lia | lia |].
    destruct (feqb _ _); cbn; unfold Rdiv; ring.
  - apply Forall_forall. intros s Hs.
    apply In_set_last in Hs. destruct Hs as [Hs | ->]; [| simpl; lra].
    apply in_map_iff in Hs. destruct Hs as [u [<- Hu]].
    assert (Hsample : forall i : nat,
               In i (seq 0 (Z.to_nat (n * 100))) ->
               (0 <= IZR (Z.of_nat i) <= IZR (n * 100 - 1))%R).
    { intros i Hi. apply in_seq in Hi.
      split; apply IZR_le; lia. }
    destruct (feqb _ _);
      apply in_map_iff in Hu; destruct Hu as [w [<- Hw]];
      apply in_map_iff in Hw; destruct Hw as [i [<- Hi]];
      apply Hsample in Hi;
      apply (sample_within_span _ _ _ Hi Hd He).
Qed.

(** For every integer time [t >= 1] the grid built by [Jacobian] has
    exactly [100 * t] samples, hence at least 100, and its last element is
    exactly [float(t)]; over the reals its first element is 0 and every
    element lies in [0, t]. *)
Lemma time_grid_integer_time :
  forall n : Z,
    (1 <= n)%Z ->
    (forall (F : Type) (S : Scalar F) (g : Globals F),
        exists tArray : list F,
          time_grid (PyInt n) g = (Ok tArray, g)
          /\ length tArray = Z.to_nat (100 * n)
          /\ 100 <= length tArray
          /\ last tArray (of_int 0) = of_int n)
    /\ (forall g : Globals R,
           exists tArray : list R,
             time_grid (PyInt n) g = (Ok tArray, g)
             /\ hd 0%R tArray = 0%R
             /\ Forall (fun s => (0 <= s <= IZR n)%R) tArray).
Proof.
  intros n Hn. split.
  - intros F S g. apply time_grid_integer. exact Hn.
  - intros g. apply time_grid_real_span. exact Hn.
Qed.

(** C7.  The grid is not built for a float time.  At the positive time
    [0.5] the claim asks for 50 samples from 0 to 0.5; the code computes
    the sample count [0.5 * 100] as a float, never converts it to an int,
    and [linspace] raises [TypeError]: no grid exists and [Jacobian] fails
    before any solver is called, while [Flow] takes the same time. *)
Theorem time_grid_float_time_defect :
  positive (PyFloat 0.5%float) = true
  /\ fst (time_grid (PyFloat 0.5%float) module_globals) = Raise TypeError
  /\ ~ (exists tArray : list float,
           fst (time_grid (PyFloat 0.5%float) module_globals) = Ok tArray
           /\ 2 <= length tArray
           /\ last tArray 0%float = 0.5%float)
  /\ (forall odeint : integrator float,
         fst (Jacobian odeint [1; 2; 3]%float (PyFloat 0.5%float)
                module_globals) = Raise TypeError)
  /\ is_ok (fst (Flow euler_odeint [1; 2; 3]%float (PyFloat 0.5%float)
                   module_globals)) = true.
Proof.
  split; [reflexivity |].
  split; [reflexivity |].
  split.
  - intros [tArray [Hgrid _]]. discriminate Hgrid.
  - split; [intros odeint; reflexivity | vm_compute; reflexivity].
Qed.

(** A computation that rebinds [a] is not read-only: the store is a real
    piece of state, and leaving it alone is a property of the code. *)
Example rebind_a_is_a_write :
  ~ read_only (F := float) (rebind_a 0.3%float).
Proof.
  intros Hro. specialize (Hro module_globals).
  apply (f_equal a) in Hro. simpl in Hro.
  apply (f_equal (fun x => PrimFloat.eqb x 0.2%float)) in Hro.
  vm_compute in Hro. discriminate Hro.
Qed.

(** ** Running the model

    With the model solver and binary64 scalars the functions evaluate. *)

Example Jacobian_runs :
  is_ok (fst (Jacobian euler_odeint [1; 2; 3]%float (PyInt 1) module_globals))
  = true.
Proof. vm_compute. reflexivity. Qed.

Example Jacobian_negative_time :
  fst (Jacobian euler_odeint [1; 2; 3]%float (PyInt (-1)) module_globals)
  = Raise ValueError.
Proof. vm_compute. reflexivity. Qed.

Example Jacobian_zero_time :
  fst (Jacobian euler_odeint [1; 2; 3]%float (PyInt 0) module_globals)
  = Raise IndexError.
Proof. vm_compute. reflexivity. Qed.

Example Jacobian_float_time :
  fst (Jacobian euler_odeint [1; 2; 3]%float (PyFloat 0.5%float)
         module_globals)
  = Raise TypeError.
Proof. vm_compute. reflexivity. Qed.

Example JacobianVelocity_wrong_length :
  fst (JacobianVelocity [1; 2; 3; 4]%float 0%float module_globals)
  = Raise ValueError.
Proof. vm_compute. reflexivity. Qed.

Example linspace_five :
  linspace (PyInt 0) (PyInt 1) (@PyInt float 5)
  = Ok [0; 0.25; 0.5; 0.75; 1]%float.
Proof. vm_compute. reflexivity. Qed.

(** ** Which arguments are accepted *)

Section ArityFacts.

Context {F : Type} `{Scalar F}.

Lemma unpack3_cases (ssp : list F) :
  (exists x y z, ssp = [x; y; z] /\ unpack3 ssp = Ok (x, y, z))
  \/ (length ssp <> 3 /\ unpack3 ssp = Raise ValueError).
Proof.
  destruct ssp as [| x [| y [| z [| w rest]]]];
    try (right; split; [simpl; lia | reflexivity]).
  left. exists x, y, z. split; reflexivity.
Qed.

Lemma Velocity_cases (ssp : list F) (t : F) (g : Globals F) :
  (length ssp = 3
   /\ exists vel, Velocity ssp t g = (Ok vel, g) /\ length vel = 3)
  \/ (length ssp <> 3 /\ Velocity ssp t g = (Raise ValueError, g)).
Proof.
  destruct (unpack3_cases ssp) as [[x [y [z [-> _]]]] | [Hlen Hraise]].
  - left. split; [reflexivity |].
    eexists. split; [apply Velocity_triple | reflexivity].
  - right. split; [exact Hlen |].
    unfold Velocity, bind, lift. rewrite Hraise. reflexivity.
Qed.

Lemma StabilityMatrix_cases (ssp : list F) (g : Globals F) :
  (length ssp = 3
   /\ exists A, StabilityMatrix ssp g = (Ok A, g) /\ is_3x3 A)
  \/ (length ssp <> 3 /\ StabilityMatrix ssp g = (Raise ValueError, g)).
Proof.
  destruct (unpack3_cases ssp) as [[x [y [z [-> _]]]] | [Hlen Hraise]].
  - left. split; [reflexivity |].
    eexists. split; [apply StabilityMatrix_triple |].
    split; [reflexivity | repeat constructor].
  - right. split; [exact Hlen |].
    unfold StabilityMatrix, bind, lift. rewrite Hraise. reflexivity.
Qed.

Lemma JacobianVelocity_cases (v : list F) (t : F) (g : Globals F) :
  (length v = 12
   /\ exists velJ, JacobianVelocity v t g = (Ok velJ, g) /\ length velJ = 12)
  \/ (length v <> 12 /\ JacobianVelocity v t g = (Raise ValueError, g)).
Proof.
  destruct (Nat.eq_dec (length v) 12) as [Hlen | Hlen].
  - left. split; [exact Hlen |].
    do 12 (destruct v as [| ? v]; [discriminate Hlen |]).
    destruct v; [| discriminate Hlen].
    eexists. split; [cbn; reflexivity | reflexivity].
  - right. split; [exact Hlen |].
    unfold JacobianVelocity, bind, lift, reshape2, slice_from.
    rewrite length_skipn.
    destruct (Nat.eqb (length v - 3) (3 * 3)) eqn:E; [| reflexivity].
    apply Nat.eqb_eq in E. simpl in E. lia.
Qed.

Lemma JacobianVelocity_keeps_length (v : list F) (t : F) (g1 g2 : Globals F)
      (v' : list F) :
  length v = 12 -> JacobianVelocity v t g1 = (Ok v', g2) -> length v' = 12.
Proof.
  intros Hlen Hrun.
  destruct (JacobianVelocity_cases v t g1)
    as [[_ [velJ [Hok Hl]]] | [Hne _]]; [| contradiction].
  rewrite Hok in Hrun. inversion Hrun; subst. exact Hl.
Qed.

Lemma initial_condition_cases_by_length (ssp : list F) (g : Globals F) :
  (exists x y z,
      ssp = [x; y; z]
      /\ initial_condition ssp g =
         (Ok ([x; y; z] ++ concat (np_identity 3)), g))
  \/ (exists x,
         ssp = [x]
         /\ initial_condition ssp g =
            (Ok ([x; x; x] ++ concat (np_identity 3)), g))
  \/ (length ssp <> 3 /\ length ssp <> 1
      /\ initial_condition ssp g = (Raise ValueError, g)).
Proof.
  destruct ssp as [| x [| y [| z [| w rest]]]].
  - right; right. repeat split; try (simpl; lia).
  - right; left. exists x. split; reflexivity.
  - right; right. repeat split; try (simpl; lia).
  - left. exists x, y, z. split; reflexivity.
  - right; right. repeat split; try (simpl; lia).
Qed.

End ArityFacts.

(** X1.  [Velocity] and [StabilityMatrix] accept exactly the states of
    three components: on such a state they return a 3-vector and a 3x3
    matrix, on any other length the unpacking [x, y, z = ssp] raises
    [ValueError]; the store is untouched either way. *)
Theorem state_must_have_three_components :
  forall (F : Type) (S : Scalar F) (ssp : list F) (t : F) (g : Globals F),
    ((length ssp = 3
      /\ exists vel, Velocity ssp t g = (Ok vel, g) /\ length vel = 3)
     \/ (length ssp <> 3 /\ Velocity ssp t g = (Raise ValueError, g)))
    /\ ((length ssp = 3
         /\ exists A, StabilityMatrix ssp g = (Ok A, g) /\ is_3x3 A)
        \/ (length ssp <> 3
            /\ StabilityMatrix ssp g = (Raise ValueError, g))).
Proof.
  intros F S ssp t g. split.
  - apply Velocity_cases.
  - apply StabilityMatrix_cases.
Qed.

(** X2.  [JacobianVelocity] accepts exactly the vectors of twelve
    components and then returns twelve components; on any other length the
    reshape of the tangent block raises [ValueError]. *)
Theorem augmented_state_must_have_twelve_components :
  forall (F : Type) (S : Scalar F) (v : list F) (t : F) (g : Globals F),
    (length v = 12
     /\ exists velJ,
          JacobianVelocity v t g = (Ok velJ, g) /\ length velJ = 12)
    \/ (length v <> 12 /\ JacobianVelocity v t g = (Raise ValueError, g)).
Proof.
  intros F S v t g. apply JacobianVelocity_cases.
Qed.

(** X3.  Over the reals each column of the tangent matrix is propagated
    on its own: column j of the tangent block returned by
    [JacobianVelocity] is the stability matrix at the state applied to
    column j of the tangent block of the argument. *)
Theorem tangent_column_propagation :
  forall (v : list R) (t : R) (g : Globals R) (j : nat),
    length v = 12 ->
    j < 3 ->
    exists (A : list (list R)) (velJ : list R),
      StabilityMatrix (slice 0 3 v) g = (Ok A, g)
      /\ JacobianVelocity v t g = (Ok velJ, g)
      /\ tangent_column j velJ = matvec A (tangent_column j v).
Proof.
  intros v t g j Hlen Hj.
  do 12 (destruct v as [| ? v]; [discriminate Hlen |]).
  destruct v; [| discriminate Hlen].
  do 2 eexists.
  split; [cbn; reflexivity |].
  split; [cbn; reflexivity |].
  destruct j as [| [| [| j]]]; [reflexivity | reflexivity | reflexivity | lia].
Qed.

Lemma tangent_column_propagation_witness :
  exists (A : list (list R)) (velJ : list R),
    let v := [1; 2; 3; 1; 0; 0; 0; 1; 0; 0; 0; 1]%R in
    StabilityMatrix (slice 0 3 v) module_globals = (Ok A, module_globals)
    /\ JacobianVelocity v 0%R module_globals = (Ok velJ, module_globals)
    /\ tangent_column 1 velJ = matvec A (tangent_column 1 v).
Proof.
  apply (tangent_column_propagation
           [1; 2; 3; 1; 0; 0; 0; 1; 0; 0; 0; 1]%R 0%R module_globals 1).
  - reflexivity.
  - lia.
Defined.

(** X4.  The initial condition of [Jacobian] is built from a state of three
    components, or from a single component, which the slice assignment
    broadcasts to all three positions; any other length is a [ValueError].
    So [Jacobian] does not reject a one-component state: it computes what
    it computes for that component repeated three times. *)
Theorem one_component_state_is_broadcast :
  forall (F : Type) (S : Scalar F) (odeint : integrator F)
         (ssp : list F) (t : pynum F) (g : Globals F),
    ((exists x y z,
         ssp = [x; y; z]
         /\ initial_condition ssp g =
            (Ok ([x; y; z] ++ concat (np_identity 3)), g))
     \/ (exists x,
            ssp = [x]
            /\ initial_condition ssp g =
               (Ok ([x; x; x] ++ concat (np_identity 3)), g))
     \/ (length ssp <> 3 /\ length ssp <> 1
         /\ initial_condition ssp g = (Raise ValueError, g)
         /\ Jacobian odeint ssp t g = (Raise ValueError, g)))
    /\ (forall x : F,
           Jacobian odeint [x] t g = Jacobian odeint [x; x; x] t g).
Proof.
  intros F S odeint ssp t g. split.
  - destruct (initial_condition_cases_by_length ssp g)
      as [Hthree | [Hone | [H3 [H1 Hraise]]]].
    + left. exact Hthree.
    + right; left. exact Hone.
    + right; right. repeat split; try assumption.
      unfold Jacobian, bind. rewrite Hraise. reflexivity.
  - intros x. reflexivity.
Qed.

(** X5.  A float time is never accepted by [Jacobian], whatever its sign:
    the sample count [t * 100] is then a float and [linspace] raises
    [TypeError] before the solver is called (a malformed state raises
    [ValueError] first). *)
Theorem Jacobian_rejects_float_time :
  forall (F : Type) (S : Scalar F) (odeint odeint' : integrator F)
         (ssp : list F) (x y z t : F) (g : Globals F),
    Jacobian odeint [x; y; z] (PyFloat t) g = (Raise TypeError, g)
    /\ Jacobian odeint ssp (PyFloat t) g = Jacobian odeint' ssp (PyFloat t) g
    /\ exists e : exn,
         Jacobian odeint ssp (PyFloat t) g = (Raise e, g)
         /\ (e = TypeError \/ e = ValueError).
Proof.
  intros F S odeint odeint' ssp x y z t g.
  split; [reflexivity |].
  assert (Hany : exists e : exn,
             (e = TypeError \/ e = ValueError)
             /\ forall o : integrator F,
                  Jacobian o ssp (PyFloat t) g = (Raise e, g)).
  { destruct (initial_condition_cases ssp g) as [[v0 Hv0] | Hraise].
    - exists TypeError. split; [left; reflexivity |].
      intros o. unfold Jacobian.
      erewrite bind_ok by exact Hv0.
      unfold bind. rewrite time_grid_float. reflexivity.
    - exists ValueError. split; [right; reflexivity |].
      intros o. unfold Jacobian, bind. rewrite Hraise. reflexivity. }
  destruct Hany as [e [He Hall]].
  split.
  - rewrite !Hall. reflexivity.
  - exists e. split; [apply Hall | exact He].
Qed.

(** ** Calls that reach the solver *)

Section SolverFacts.

Context {F : Type} `{Scalar F}.

Lemma bind_raise (A B : Type) (m : M F A) (k : A -> M F B)
      (g g' : Globals F) (e : exn) :
  m g = (Raise e, g') -> bind m k g = (Raise e, g').
Proof. intros Hm. unfold bind. rewrite Hm. reflexivity. Qed.

Lemma euler_step_length (y v : list F) (h : F) :
  length (euler_step y v h) = Nat.min (length y) (length v).
Proof. unfold euler_step. rewrite length_map. apply length_combine. Qed.

Lemma euler_from_width (f : rhs F) (w : nat) :
  (forall v t g1 v' g2,
      length v = w -> f v t g1 = (Ok v', g2) -> length v' = w) ->
  forall (ts : list F) (y : list F) (t : F) (g : Globals F)
         (rest : list (list F)) (g' : Globals F),
    length y = w ->
    euler_from f y t ts g = (Ok rest, g') ->
    Forall (fun row => length row = w) rest.
Proof.
  intros Hf.
  induction ts as [| t' ts IH]; intros y t g rest g' Hy Hrun; simpl in Hrun.
  - inversion Hrun. constructor.
  - destruct (feqb t' t).
    + unfold bind in Hrun.
      destruct (euler_from f y t' ts g) as [[r | e] g1] eqn:E;
        [| discriminate Hrun].
      inversion Hrun; subst rest g'. constructor; [exact Hy |].
      exact (IH _ _ _ _ _ Hy E).
    + unfold bind in Hrun.
      destruct (f y t g) as [[v | e] g1] eqn:Ef; [| discriminate Hrun].
      pose proof (Hf _ _ _ _ _ Hy Ef) as Hv.
      assert (Hstep : length (euler_step y v (fsub t' t)) = w).
      { rewrite euler_step_length, Hy, Hv. apply Nat.min_id. }
      destruct (euler_from f (euler_step y v (fsub t' t)) t' ts g1)
        as [[r | e] g2] eqn:E; [| discriminate Hrun].
      inversion Hrun; subst rest g'. constructor; [exact Hstep |].
      exact (IH _ _ _ _ _ Hstep E).
Qed.

Lemma euler_rows_as_wide_as_state : rows_as_wide_as_state euler_odeint.
Proof.
  intros f y0 [| t0 ts] g sol g' Hf Hrun; simpl in Hrun.
  - inversion Hrun. constructor.
  - unfold bind in Hrun.
    destruct (f y0 t0 g) as [[v | e] g1]; [| discriminate Hrun].
    destruct (euler_from f y0 t0 ts g1) as [[r | e] g2] eqn:E;
      [| discriminate Hrun].
    inversion Hrun; subst. constructor; [reflexivity |].
    eapply euler_from_width; [exact Hf | reflexivity | exact E].
Qed.

Lemma final_block_twelve (rows : list (list F)) (r : list F) (g : Globals F) :
  length r = 12 ->
  exists J, final_block (rows ++ [r]) g = (Ok J, g) /\ is_3x3 J.
Proof.
  intros Hr.
  do 12 (destruct r as [| ? r]; [discriminate Hr |]).
  destruct r; [| discriminate Hr].
  eexists. split; [apply final_block_last |].
  split; [reflexivity | repeat constructor].
Qed.

Section WithSolver.

Variable odeint : integrator F.
Hypothesis odeint_rows : one_row_per_time odeint.

Lemma Flow_cases (ssp0 : list F) (deltat : pynum F) (g : Globals F) :
  (exists r0 r1 g',
      odeint Velocity ssp0 [of_int 0; to_float deltat] g = (Ok [r0; r1], g')
      /\ Flow odeint ssp0 deltat g = (Ok r1, g'))
  \/ (exists e g',
         odeint Velocity ssp0 [of_int 0; to_float deltat] g = (Raise e, g')
         /\ Flow odeint ssp0 deltat g = (Raise e, g')).
Proof.
  unfold Flow.
  destruct (odeint Velocity ssp0 [of_int 0; to_float deltat] g)
    as [[sol | e] g1] eqn:E.
  - left.
    pose proof (odeint_rows _ _ _ _ _ _ E) as Hlen.
    destruct sol as [| r0 [| r1 [| r2 sol]]]; try discriminate Hlen.
    exists r0, r1, g1. split; [reflexivity |].
    erewrite bind_ok by exact E. reflexivity.
  - right. exists e, g1. split; [reflexivity |].
    apply bind_raise. exact E.
Qed.

Hypothesis odeint_width : rows_as_wide_as_state odeint.

Lemma Jacobian_cases (x y z : F) (n : Z) (g : Globals F) :
  (1 <= n)%Z ->
  (exists J g',
      Jacobian odeint [x; y; z] (PyInt n) g = (Ok J, g') /\ is_3x3 J)
  \/ (exists e g' tArray,
         odeint JacobianVelocity ([x; y; z] ++ concat (np_identity 3))
                tArray g = (Raise e, g')
         /\ Jacobian odeint [x; y; z] (PyInt n) g = (Raise e, g')).
Proof.
  intros Hn.
  unfold Jacobian.
  erewrite bind_ok by apply initial_condition_triple.
  destruct (time_grid_integer n g Hn) as [tArray [Hgrid [_ [Hmany _]]]].
  erewrite bind_ok by exact Hgrid.
  set (y0 := [x; y; z; of_int 1; of_int 0; of_int 0; of_int 0; of_int 1;
              of_int 0; of_int 0; of_int 0; of_int 1]).
  destruct (odeint JacobianVelocity y0 tArray g) as [[sol | e] g1] eqn:E.
  - left.
    pose proof (odeint_rows _ _ _ _ _ _ E) as Hlen.
    assert (Hwide : Forall (fun row => length row = 12) sol).
    { apply (odeint_width JacobianVelocity y0 tArray g sol g1); [| exact E].
      intros v t g2 v' g3 Hv Hrun.
      apply (JacobianVelocity_keeps_length v t g2 g3 v' Hv Hrun). }
    destruct (exists_last (l := sol)) as [rows [r ->]].
    { intros ->. simpl in Hlen. lia. }
    apply Forall_app in Hwide. destruct Hwide as [_ Hr].
    inversion Hr as [| ? ? Hr12 _]; subst.
    destruct (final_block_twelve rows r g1 Hr12) as [J [HJ Hshape]].
    exists J, g1. split; [| exact Hshape].
    erewrite bind_ok by exact E.
    rewrite bind_ret_r. exact HJ.
  - right. exists e, g1, tArray. split; [exact E |].
    apply bind_raise. exact E.
Qed.

End WithSolver.

End SolverFacts.

(** X6.  [Flow] asks the solver for the two times [0.0] and [deltat] and
    returns the second row of the solution.  Given a solver that returns
    one row per time, [Flow] fails only when the solver fails, and with the
    solver's exception. *)
Theorem Flow_returns_second_sample :
  forall (F : Type) (S : Scalar F) (odeint : integrator F),
    one_row_per_time odeint ->
    forall (ssp0 : list F) (deltat : pynum F) (g : Globals F),
      (exists r0 r1 g',
          odeint Velocity ssp0 [of_int 0; to_float deltat] g
          = (Ok [r0; r1], g')
          /\ Flow odeint ssp0 deltat g = (Ok r1, g'))
      \/ (exists e g',
             odeint Velocity ssp0 [of_int 0; to_float deltat] g
             = (Raise e, g')
             /\ Flow odeint ssp0 deltat g = (Raise e, g')).
Proof.
  intros F S odeint Hrows ssp0 deltat g.
  apply Flow_cases. exact Hrows.
Qed.

Lemma Flow_returns_second_sample_witness :
  (exists r0 r1 g',
      euler_odeint Velocity [1; 2; 3]%float
        [of_int 0; to_float (PyFloat 0.5%float)] module_globals
      = (Ok [r0; r1], g')
      /\ Flow euler_odeint [1; 2; 3]%float (PyFloat 0.5%float) module_globals
         = (Ok r1, g'))
  \/ (exists e g',
         euler_odeint Velocity [1; 2; 3]%float
           [of_int 0; to_float (PyFloat 0.5%float)] module_globals
         = (Raise e, g')
         /\ Flow euler_odeint [1; 2; 3]%float (PyFloat 0.5%float)
              module_globals
            = (Raise e, g')).
Proof.
  apply (Flow_returns_second_sample float Binary64.binary64 euler_odeint
           euler_one_row_per_time).
Defined.

(** X7.  On a state of three components and an integer time [t >= 1],
    [Jacobian] has no failure of its own: given a solver that returns one
    row per time, each as long as the initial vector, it returns a 3x3
    matrix, or else raises the exception the solver raised. *)
Theorem Jacobian_returns_3x3 :
  forall (F : Type) (S : Scalar F) (odeint : integrator F),
    one_row_per_time odeint ->
    rows_as_wide_as_state odeint ->
    forall (x y z : F) (n : Z) (g : Globals F),
      (1 <= n)%Z ->
      (exists J g',
          Jacobian odeint [x; y; z] (PyInt n) g = (Ok J, g') /\ is_3x3 J)
      \/ (exists e g' tArray,
             odeint JacobianVelocity ([x; y; z] ++ concat (np_identity 3))
                    tArray g = (Raise e, g')
             /\ Jacobian odeint [x; y; z] (PyInt n) g = (Raise e, g')).
Proof.
  intros F S odeint Hrows Hwide x y z n g Hn.
  apply Jacobian_cases; assumption.
Qed.

Lemma Jacobian_returns_3x3_witness :
  (exists J g',
      Jacobian euler_odeint [1; 2; 3]%float (PyInt 1) module_globals
      = (Ok J, g') /\ is_3x3 J)
  \/ (exists e g' tArray,
         euler_odeint JacobianVelocity
           ([1; 2; 3]%float ++ concat (np_identity 3)) tArray module_globals
         = (Raise e, g')
         /\ Jacobian euler_odeint [1; 2; 3]%float (PyInt 1) module_globals
            = (Raise e, g')).
Proof.
  apply (Jacobian_returns_3x3 float Binary64.binary64 euler_odeint
           euler_one_row_per_time euler_rows_as_wide_as_state).
  lia.
Defined.

(** ** The vector field over the reals *)

Section RealFacts.

Import RealVector.

Local Open Scope R_scope.

Lemma velocity_at_triple (g : Globals R) (x y z : R) :
  velocity_at g [x; y; z] =
  [- y - z; x + a g * y; b g + z * (x - c g)].
Proof. reflexivity. Qed.

Lemma stability_at_triple (g : Globals R) (x y z : R) :
  stability_at g [x; y; z] =
  [[0; -1; -1]; [1; a g; 0]; [z; 0; x - c g]].
Proof. reflexivity. Qed.

Lemma tangent_velocity_nine (g : Globals R) (x y z : R)
      (j0 j1 j2 j3 j4 j5 j6 j7 j8 : R) :
  tangent_velocity g [x; y; z] [j0; j1; j2; j3; j4; j5; j6; j7; j8] =
  [0 * j0 + -1 * j3 + -1 * j6;
   0 * j1 + -1 * j4 + -1 * j7;
   0 * j2 + -1 * j5 + -1 * j8;
   1 * j0 + a g * j3 + 0 * j6;
   1 * j1 + a g * j4 + 0 * j7;
   1 * j2 + a g * j5 + 0 * j8;
   z * j0 + 0 * j3 + (x - c g) * j6;
   z * j1 + 0 * j4 + (x - c g) * j7;
   z * j2 + 0 * j5 + (x - c g) * j8].
Proof.
  unfold tangent_velocity. cbn.
  repeat (f_equal; try ring).
Qed.

End RealFacts.

(** X8.  Over the reals [StabilityMatrix] is the full derivative of
    [Velocity], and the remainder is exactly the quadratic term of the
    third equation: [Velocity(s + h) = Velocity(s) + A(s) h + (0, 0, hx*hz)]
    for every state [s] and displacement [h]. *)
Theorem Velocity_second_order_expansion :
  forall (g : Globals R) (x y z hx hy hz : R),
    RealVector.velocity_at g [x + hx; y + hy; z + hz]%R =
    RealVector.vadd
      (RealVector.vadd
         (RealVector.velocity_at g [x; y; z])
         (matvec (RealVector.stability_at g [x; y; z]) [hx; hy; hz]))
      [0; 0; hx * hz]%R.
Proof.
  intros g x y z hx hy hz.
  rewrite !velocity_at_triple, stability_at_triple.
  cbn.
  f_equal; [ring |].
  f_equal; [ring |].
  f_equal; ring.
Qed.

(** X9.  Over the reals [Velocity] vanishes at (x, y, z) exactly when
    [y = -z], [x = a*z] and [z] is a root of [a*z^2 - c*z + b]: these are
    the equilibria of the flow. *)
Theorem Velocity_zero_iff_equilibrium :
  forall (g : Globals R) (x y z : R),
    RealVector.velocity_at g [x; y; z] = [0; 0; 0]%R
    <-> (y = - z /\ x = a g * z /\ a g * z * z - c g * z + b g = 0)%R.
Proof.
  intros g x y z.
  rewrite velocity_at_triple.
  split.
  - intros Hzero.
    injection Hzero as H1 H2 H3.
    assert (Hy : (y = - z)%R) by lra.
    subst y.
    assert (Hx : (x = a g * z)%R) by lra.
    subst x.
    repeat split. lra.
  - intros [Hy [Hx Hz]]. subst x y.
    f_equal; [ring |].
    f_equal; [ring |].
    f_equal. lra.
Qed.

(** X10.  Over the reals the tangent part of [JacobianVelocity] is linear
    in the tangent matrix: at a fixed state, the tangent velocity of
    [k * J1 + J2] is k times that of [J1] plus that of [J2]. *)
Theorem tangent_velocity_linear :
  forall (g : Globals R) (x y z k : R) (J1 J2 : list R),
    length J1 = 9 ->
    length J2 = 9 ->
    RealVector.tangent_velocity g [x; y; z]
      (RealVector.vadd (RealVector.vscale k J1) J2) =
    RealVector.vadd
      (RealVector.vscale k (RealVector.tangent_velocity g [x; y; z] J1))
      (RealVector.tangent_velocity g [x; y; z] J2).
Proof.
  intros g x y z k J1 J2 H1 H2.
  do 9 (destruct J1 as [| ? J1]; [discriminate H1 |]).
  destruct J1; [| discriminate H1].
  do 9 (destruct J2 as [| ? J2]; [discriminate H2 |]).
  destruct J2; [| discriminate H2].
  cbn [RealVector.vadd RealVector.vscale map combine fst snd].
  rewrite !tangent_velocity_nine.
  cbn [RealVector.vadd RealVector.vscale map combine fst snd].
  repeat (f_equal; try ring).
Qed.

Lemma tangent_velocity_linear_witness :
  RealVector.tangent_velocity module_globals [1; 2; 3]%R
    (RealVector.vadd
       (RealVector.vscale 2%R [1; 0; 0; 0; 1; 0; 0; 0; 1]%R)
       [0; 1; 0; 0; 0; 1; 1; 0; 0]%R) =
  RealVector.vadd
    (RealVector.vscale 2%R
       (RealVector.tangent_velocity module_globals [1; 2; 3]%R
          [1; 0; 0; 0; 1; 0; 0; 0; 1]%R))
    (RealVector.tangent_velocity module_globals [1; 2; 3]%R
       [0; 1; 0; 0; 0; 1; 1; 0; 0]%R).
Proof.
  apply (tangent_velocity_linear module_globals 1 2 3 2
           [1; 0; 0; 0; 1; 0; 0; 0; 1]%R [0; 1; 0; 0; 0; 1; 1; 0; 0]%R).
  - reflexivity.
  - reflexivity.
Defined.

(** X11.  Over the reals, at the initial condition that [Jacobian] builds
    from a state, [JacobianVelocity] returns the velocity at the state
    followed by the rows of the stability matrix at the state: the tangent
    matrix starts to move with velocity [A(x) . I = A(x)]. *)
Theorem JacobianVelocity_at_initial_condition :
  forall (g : Globals R) (x y z t : R),
    exists v0 : list R,
      initial_condition [x; y; z] g = (Ok v0, g)
      /\ exists velJ : list R,
           JacobianVelocity v0 t g = (Ok velJ, g)
           /\ velJ = (RealVector.velocity_at g [x; y; z]
                      ++ concat (RealVector.stability_at g [x; y; z])).
Proof.
  intros g x y z t.
  eexists. split; [apply initial_condition_triple |].
  eexists. split; [cbn; reflexivity |].
  rewrite velocity_at_triple, stability_at_triple.
  cbn.
  repeat (f_equal; try ring).
Qed.

(** ** What [Jacobian] does with the solution *)

Section JacobianRun.

Context {F : Type} `{Scalar F}.

Variable odeint : integrator F.
Hypothesis odeint_rows : one_row_per_time odeint.
Hypothesis odeint_width : rows_as_wide_as_state odeint.



End JacobianRun.



